(** * Retail Insight Genie: the TF-IDF retrieval pipeline of [rag.py] and
      the evaluation helper of [evaluate.py], embedded and verified.

    The Python sources call three libraries.  Their behaviour is modelled
    here as far as the pipeline observes it:
    - [json.load] produces a value of type [json];
    - scikit-learn's [TfidfVectorizer(stop_words="english")] and
      [linear_kernel] are modelled on IEEE binary64 numbers, with
      round-to-nearest operations applied in the order in which the
      library's sparse routines apply them;
    - NumPy's [argsort] is modelled by the stable insertion sort that its
      default kind runs on arrays of at most sixteen entries. *)

From Stdlib Require Import ZArith Bool Lia Ascii.
From Stdlib Require Import Sorting.Sorted Structures.OrdersEx.
From Stdlib Require Import Floats.SpecFloat.
From stdpp Require Import gmap strings list.

Open Scope Z_scope.

(** ** Binary64 numbers *)

Module F64.

(** A Python [float]: an IEEE 754 binary64 number. *)
Definition float : Type := spec_float.

Definition prec : Z := 53.
Definition emax : Z := 1024.

Definition mul : float -> float -> float := SFmul prec emax.
Definition add : float -> float -> float := SFadd prec emax.
Definition div : float -> float -> float := SFdiv prec emax.
Definition sqrt : float -> float := SFsqrt prec emax.

(** Conversion of a Python [int] (exact below 2^53). *)
Definition of_Z (n : Z) : float := binary_normalize prec emax n 0 false.
Definition of_nat (n : nat) : float := of_Z (Z.of_nat n).

Definition zero : float := S754_zero false.
Definition one : float := Eval vm_compute in of_Z 1.

Definition is_nan (x : float) : bool :=
  match x with S754_nan => true | _ => false end.

(** [x < y], [x == y] and [x > 0] as Python evaluates them: every
    comparison with a NaN is false. *)
Definition ltb (x y : float) : bool := SFltb x y.
Definition eqb (x y : float) : bool := SFeqb x y.
Definition positive (x : float) : bool := ltb zero x.

(** The order NumPy sorts floating-point keys by: [a < b], with every
    NaN after every number ([a < b || (b != b && a == a)]). *)
Definition sort_lt (a b : float) : bool :=
  ltb a b || (is_nan b && negb (is_nan a)).

End F64.

Abbreviation float := F64.float.

(** ** Python slices and membership *)

(** [l[:k]] for a Python [int] [k]: the first [k] elements when [k] is not
    negative, all but the last [-k] elements when it is. *)
Definition slice_to {A : Type} (l : list A) (k : Z) : list A :=
  if 0 <=? k then take (Z.to_nat k) l
  else take (Z.to_nat (Z.of_nat (length l) + k)) l.

(** [x in l] on a list of Python [int]s. *)
Definition py_in (x : Z) (l : list Z) : bool := existsb (Z.eqb x) l.

(** ** [evaluate.py] *)

Definition precision_at_k (ranking : list Z) (relevant_index : Z) (k : Z) : float :=
  if py_in relevant_index (slice_to ranking k) then F64.one else F64.zero.


(** ** Exceptions *)

Inductive exn : Type :=
  | OSError
  | JSONDecodeError
  | ValueError (msg : string)
  | IndexError.

Inductive result (A : Type) : Type :=
  | Ok (a : A)
  | Raise (e : exn).
Arguments Ok {A} a.
Arguments Raise {A} e.

Definition bind {A B : Type} (r : result A) (f : A -> result B) : result B :=
  match r with
  | Ok a => f a
  | Raise e => Raise e
  end.

Notation "x <- r ;; k" := (bind r (fun x => k))
  (at level 100, r at next level, right associativity).

(** ** Text analysis of [TfidfVectorizer(stop_words="english")]

    Strings are byte strings; the model covers ASCII text, on which
    [str.lower] and the class [\w] act as written below. *)

Module Text.

Definition code (c : ascii) : N := Ascii.N_of_ascii c.

Definition between (lo hi : N) (c : ascii) : bool :=
  ((lo <=? code c) && (code c <=? hi))%N.

(** [\w]: digits, letters and the underscore. *)
Definition is_word_char (c : ascii) : bool :=
  between 48 57 c || between 65 90 c || between 97 122 c || (code c =? 95)%N.

Definition lower_char (c : ascii) : ascii :=
  if between 65 90 c then Ascii.ascii_of_N (code c + 32) else c.

(** [str.lower]. *)
Fixpoint lower (s : string) : string :=
  match s with
  | EmptyString => EmptyString
  | String c s' => String (lower_char c) (lower s')
  end.

(** The maximal runs of word characters of [s], in order; [cur] is the
    run being read. *)
Fixpoint runs (s : string) (cur : string) : list string :=
  match s with
  | EmptyString => [cur]
  | String c s' =>
      if is_word_char c then runs s' (cur +:+ String c EmptyString)
      else cur :: runs s' EmptyString
  end.

(** [re.findall(r"(?u)\b\w\w+\b", s)]: the runs of two or more word
    characters. *)
Definition tokenize (s : string) : list string :=
  List.filter (fun w => (2 <=? String.length w)%nat) (runs s EmptyString).

(** scikit-learn's [ENGLISH_STOP_WORDS]. *)
Definition ENGLISH_STOP_WORDS : list string :=
  [ "a"; "about"; "above"; "across"; "after"; "afterwards"; "again";
    "against"; "all"; "almost"; "alone"; "along"; "already"; "also";
    "although"; "always"; "am"; "among"; "amongst"; "amoungst"; "amount";
    "an"; "and"; "another"; "any"; "anyhow"; "anyone"; "anything"; "anyway";
    "anywhere"; "are"; "around"; "as"; "at"; "back"; "be"; "became";
    "because"; "become"; "becomes"; "becoming"; "been"; "before";
    "beforehand"; "behind"; "being"; "below"; "beside"; "besides";
    "between"; "beyond"; "bill"; "both"; "bottom"; "but"; "by"; "call";
    "can"; "cannot"; "cant"; "co"; "con"; "could"; "couldnt"; "cry"; "de";
    "describe"; "detail"; "do"; "done"; "down"; "due"; "during"; "each";
    "eg"; "eight"; "either"; "eleven"; "else"; "elsewhere"; "empty";
    "enough"; "etc"; "even"; "ever"; "every"; "everyone"; "everything";
    "everywhere"; "except"; "few"; "fifteen"; "fifty"; "fill"; "find";
    "fire"; "first"; "five"; "for"; "former"; "formerly"; "forty"; "found";
    "four"; "from"; "front"; "full"; "further"; "get"; "give"; "go"; "had";
    "has"; "hasnt"; "have"; "he"; "hence"; "her"; "here"; "hereafter";
    "hereby"; "herein"; "hereupon"; "hers"; "herself"; "him"; "himself";
    "his"; "how"; "however"; "hundred"; "i"; "ie"; "if"; "in"; "inc";
    "indeed"; "interest"; "into"; "is"; "it"; "its"; "itself"; "keep";
    "last"; "latter"; "latterly"; "least"; "less"; "ltd"; "made"; "many";
    "may"; "me"; "meanwhile"; "might"; "mill"; "mine"; "more"; "moreover";
    "most"; "mostly"; "move"; "much"; "must"; "my"; "myself"; "name";
    "namely"; "neither"; "never"; "nevertheless"; "next"; "nine"; "no";
    "nobody"; "none"; "noone"; "nor"; "not"; "nothing"; "now"; "nowhere";
    "of"; "off"; "often"; "on"; "once"; "one"; "only"; "onto"; "or";
    "other"; "others"; "otherwise"; "our"; "ours"; "ourselves"; "out";
    "over"; "own"; "part"; "per"; "perhaps"; "please"; "put"; "rather";
    "re"; "same"; "see"; "seem"; "seemed"; "seeming"; "seems"; "serious";
    "several"; "she"; "should"; "show"; "side"; "since"; "sincere"; "six";
    "sixty"; "so"; "some"; "somehow"; "someone"; "something"; "sometime";
    "sometimes"; "somewhere"; "still"; "such"; "system"; "take"; "ten";
    "than"; "that"; "the"; "their"; "them"; "themselves"; "then"; "thence";
    "there"; "thereafter"; "thereby"; "therefore"; "therein"; "thereupon";
    "these"; "they"; "thick"; "thin"; "third"; "this"; "those"; "though";
    "three"; "through"; "throughout"; "thru"; "thus"; "to"; "together";
    "too"; "top"; "toward"; "towards"; "twelve"; "twenty"; "two"; "un";
    "under"; "until"; "up"; "upon"; "us"; "very"; "via"; "was"; "we";
    "well"; "were"; "what"; "whatever"; "when"; "whence"; "whenever";
    "where"; "whereafter"; "whereas"; "whereby"; "wherein"; "whereupon";
    "wherever"; "whether"; "which"; "while"; "whither"; "who"; "whoever";
    "whole"; "whom"; "whose"; "why"; "will"; "with"; "within"; "without";
    "would"; "yet"; "you"; "your"; "yours"; "yourself"; "yourselves" ]%string.

Definition is_stop_word (w : string) : bool :=
  existsb (String.eqb w) ENGLISH_STOP_WORDS.

(** The analyzer the vectorizer builds: lower-case, tokenize, drop the
    stop words (unigrams only). *)
Definition analyzer (s : string) : list string :=
  List.filter (fun w => negb (is_stop_word w)) (tokenize (lower s)).

End Text.

(** ** NumPy: [argsort] on a one-dimensional array of floats *)

Module Np.

(** [v[i]] for an index inside the array. *)
Definition get (v : list float) (i : nat) : float := nth i v F64.zero.

(** One pass of the inner loop of the insertion sort: [vi] moves left past
    every index whose key is greater ([LT(v[vi], v[pk])]).  The sorted
    part is held from its right end, so [rsorted] lists it backwards. *)
Fixpoint insert_index (v : list float) (vi : nat) (rsorted : list nat) : list nat :=
  match rsorted with
  | [] => [vi]
  | pk :: rest =>
      if F64.sort_lt (get v vi) (get v pk) then pk :: insert_index v vi rest
      else vi :: rsorted
  end.

(** The sorted part after [indices] have been inserted, backwards. *)
Definition insert_all (v : list float) (indices : list nat) : list nat :=
  fold_left (fun rsorted vi => insert_index v vi rsorted) indices [].

(** [v.argsort()]. *)
Definition argsort (v : list float) : list nat :=
  rev (insert_all v (seq 0 (length v))).

End Np.

(** ** scikit-learn: the fitted [TfidfVectorizer] and [linear_kernel] *)

Module Sk.

(** A row of a CSR matrix: its stored (column, value) entries, in the
    order in which the matrix stores them. *)
Definition row : Type := list (nat * float).

(** The vocabulary is sorted by term: insertion of a term in a sorted list
    without duplicates. *)
Fixpoint insert_term (t : string) (v : list string) : list string :=
  match v with
  | [] => [t]
  | u :: v' =>
      match String.compare t u with
      | Lt => t :: v
      | Eq => v
      | Gt => u :: insert_term t v'
      end
  end.

Definition sorted_terms (tokens : list string) : list string :=
  foldr insert_term [] tokens.

(** Number of occurrences of a term in an analysed document. *)
Definition count (t : string) (tokens : list string) : nat :=
  length (List.filter (String.eqb t) tokens).

(** The row of term counts of a document: one entry for each vocabulary
    term that occurs in it, columns counted from [i]. *)
Fixpoint count_row (i : nat) (vocabulary : list string) (tokens : list string)
  : list (nat * nat) :=
  match vocabulary with
  | [] => []
  | t :: vocabulary' =>
      let c := count t tokens in
      if (c =? 0)%nat then count_row (S i) vocabulary' tokens
      else (i, c) :: count_row (S i) vocabulary' tokens
  end.

(** Number of documents a term occurs in. *)
Definition document_frequency (t : string) (analysed : list (list string)) : nat :=
  length (List.filter (fun tokens => negb (count t tokens =? 0)%nat) analysed).

(** [X.data *= idf_[X.indices]] on one row of counts. *)
Definition tfidf_row (idf : list float) (counts : list (nat * nat)) : row :=
  map (fun p => (p.1, F64.mul (F64.of_nat p.2) (nth p.1 idf F64.zero))) counts.

(** The squared Euclidean norm of a row, summed entry by entry. *)
Definition sum_squares (r : row) : float :=
  fold_left (fun s p => F64.add s (F64.mul p.2 p.2)) r F64.zero.

(** [normalize(X, norm="l2")] on one row: a row whose sum of squares is
    zero is left as it is. *)
Definition normalize (r : row) : row :=
  let s := sum_squares r in
  if F64.eqb s F64.zero then r
  else map (fun p => (p.1, F64.div p.2 (F64.sqrt s))) r.

(** [vectorizer.transform([text])] with a fitted vocabulary and idf
    vector: terms outside the vocabulary are ignored, and the entries of
    the row are in ascending column order. *)
Definition transform (vocabulary : list string) (idf : list float) (text : string) : row :=
  normalize (tfidf_row idf (count_row 0 vocabulary (Text.analyzer text))).

(** The stored value of column [j] of a row. *)
Fixpoint lookup_col (j : nat) (r : row) : option float :=
  match r with
  | [] => None
  | (i, x) :: r' => if (i =? j)%nat then Some x else lookup_col j r'
  end.

(** One entry of the sparse product [q @ D.T]: the products of the
    entries the two rows share, accumulated in the order of [q]. *)
Definition dot (q d : row) : float :=
  fold_left
    (fun s p =>
       match lookup_col p.1 d with
       | Some y => F64.add s (F64.mul p.2 y)
       | None => s
       end)
    q F64.zero.

(** [linear_kernel(query_vec, doc_vectors).flatten()]. *)
Definition linear_kernel (q : row) (doc_vectors : list row) : list float :=
  map (dot q) doc_vectors.

(** The terms of the analysed corpus in the order in which fitting first
    meets them; [seen] holds the terms met before. *)
Fixpoint first_seen (tokens seen : list string) : list string :=
  match tokens with
  | [] => []
  | t :: tokens' =>
      if existsb (String.eqb t) seen then first_seen tokens' seen
      else t :: first_seen tokens' (t :: seen)
  end.

(** The column of a term: its position in the sorted vocabulary. *)
Fixpoint index_of (t : string) (vocabulary : list string) : nat :=
  match vocabulary with
  | [] => 0%nat
  | u :: vocabulary' =>
      if String.eqb t u then 0%nat else S (index_of t vocabulary')
  end.

(** The row of term counts of a fitted document.  Fitting numbers the terms
    as it meets them, sorts each row by these numbers and then renames the
    columns to the positions of the sorted vocabulary without reordering the
    row: the entries stay in the order of first occurrence in the corpus. *)
Definition fitted_row (order vocabulary tokens : list string) : list (nat * nat) :=
  flat_map
    (fun t =>
       let c := count t tokens in
       if (c =? 0)%nat then [] else [(index_of t vocabulary, c)])
    order.

Section Fit.

(** [np.log] on binary64 numbers. *)
Variable np_log : float -> float.

(** The smoothed inverse document frequency,
    [np.log((1 + n) / (1 + df)) + 1]. *)
Definition idf_of (n_samples df : nat) : float :=
  F64.add
    (np_log (F64.div (F64.of_nat (n_samples + 1))
                     (F64.add (F64.of_nat df) F64.one)))
    F64.one.

(** [vectorizer.fit_transform(texts)]: the vocabulary, the idf vector
    and the document matrix; an empty vocabulary is an error. *)
Definition fit_transform (texts : list string)
  : result (list string * list float * list row) :=
  let analysed := map Text.analyzer texts in
  let vocabulary := sorted_terms (concat analysed) in
  match vocabulary with
  | [] =>
      Raise (ValueError
        "empty vocabulary; perhaps the documents only contain stop words")
  | _ =>
      let idf :=
        map (fun t => idf_of (length texts) (document_frequency t analysed))
            vocabulary in
      let order := first_seen (concat analysed) [] in
      Ok (vocabulary, idf,
          map (fun tokens => normalize (tfidf_row idf (fitted_row order vocabulary tokens)))
              analysed)
  end.

End Fit.

End Sk.

(** ** [rag.py] *)

(** The value [json.load] returns. *)
#[local] Unset Elimination Schemes.
Inductive json : Type :=
  | JNull
  | JBool (b : bool)
  | JInt (n : Z)
  | JFloat (x : float)
  | JStr (s : string)
  | JList (items : list json)
  | JDict (members : list (string * json)).
#[local] Set Elimination Schemes.

Section Load.

(** [path.open("r", encoding="utf-8")] followed by [json.load]: the parsed
    content of the file, [OSError] when it cannot be opened,
    [JSONDecodeError] when it is not JSON. *)
Variable read_json : string -> result json.

Definition load_docs (path : string) : result (list json) :=
  data <- read_json path ;;
  match data with
  | JList items => Ok items
  | _ => Raise (ValueError "documents JSON must contain a list")
  end.

End Load.

(** A product document: a [dict] whose fields hold strings. *)
Definition document : Type := gmap string string.

(** [doc.get(key, "")]. *)
Definition get_field (doc : document) (key : string) : string :=
  default ""%string (doc !! key).

(** The state of a [RAG] object; [vocabulary_] and [idf_] are the fitted
    state of [self.vectorizer]. *)
Record RAG : Type := mkRAG {
  docs : list document;
  texts : list string;
  vocabulary_ : list string;
  idf_ : list float;
  doc_vectors : list Sk.row
}.

(** [f"{doc.get('title', '')} {doc.get('description', '')}"]. *)
Definition text_of (doc : document) : string :=
  get_field doc "title" +:+ " " +:+ get_field doc "description".

(** A function that agrees with [np.log] at [1.0], where the logarithm is
    exactly [0.0]; it is used to run the pipeline on collections whose terms
    all occur in every document, for which [np.log] is applied to [1.0]
    only. *)
Definition log_at_one (x : float) : float :=
  if F64.eqb x F64.one then F64.zero else S754_nan.

Section Init.

Variable np_log : float -> float.

(** [RAG.__init__]. *)
Definition RAG_init (documents : list document) : result RAG :=
  let docs := documents in
  let texts := map text_of docs in
  fitted <- Sk.fit_transform np_log texts ;;
  let '(vocabulary, idf, X) := fitted in
  Ok (mkRAG docs texts vocabulary idf X).

End Init.

(** The array [scores] that [RAG.retrieve] ranks. *)
Definition scores_of (self : RAG) (query : string) : list float :=
  let query_vec := Sk.transform (vocabulary_ self) (idf_ self) query in
  Sk.linear_kernel query_vec (doc_vectors self).

(** [RAG.retrieve]. *)
Definition retrieve (self : RAG) (query : string) (k : Z) : list (nat * float) :=
  if String.eqb query "" then []
  else
    let scores := scores_of self query in
    let ranked_indices := slice_to (rev (Np.argsort scores)) k in
    map (fun idx => (idx, Np.get scores idx))
        (List.filter (fun idx => F64.positive (Np.get scores idx)) ranked_indices).

Definition fallback : string :=
  "I'm sorry, I couldn't find information on that topic.".

(** [RAG.answer]; [self.docs[idx]] raises [IndexError] outside the list. *)
Definition answer (self : RAG) (query : string) (k : Z) : result string :=
  match retrieve self query k with
  | [] => Ok fallback
  | (idx, _score) :: _ =>
      match docs self !! idx with
      | None => Raise IndexError
      | Some doc =>
          let title := get_field doc "title" in
          let description := get_field doc "description" in
          Ok (title +:+ ": " +:+ description)
      end
  end.

(** ** [evaluate.py]: the evaluation loop *)

Definition SAMPLE_QUERIES : list (string * Z) :=
  [ ("battery life of pro laptop", 0);
    ("features of smartphone", 1);
    ("noise cancellation earbuds", 2);
    ("tablet display size", 3);
    ("gaming console graphics", 4) ]%string.

(** [sum(xs)] on a list of floats: the additions start from the integer
    [0].  (The precisions summed here are [0.0] and [1.0], whose partial
    sums are exact.) *)
Definition py_sum (xs : list float) : float :=
  fold_left F64.add xs (F64.of_Z 0).

(** The list [precisions] that the loop of [evaluate] builds. *)
Definition precisions_of (rag : RAG) (k : Z) : list float :=
  map (fun sample : string * Z =>
         let results := retrieve rag sample.1 k in
         let ranking := map (fun r : nat * float => Z.of_nat r.1) results in
         precision_at_k ranking sample.2 k)
      SAMPLE_QUERIES.

(** [sum(precisions) / len(precisions) if precisions else 0.0]. *)
Definition mean (precisions : list float) : float :=
  match precisions with
  | [] => F64.zero
  | _ => F64.div (py_sum precisions) (F64.of_nat (length precisions))
  end.

Section Evaluate.

Variable np_log : float -> float.

(** [evaluate], from the documents that [load_docs] has returned. *)
Definition evaluate_docs (documents : list document) (k : Z) : result float :=
  rag <- RAG_init np_log documents ;;
  Ok (mean (precisions_of rag k)).

End Evaluate.

(** ** Definitions used by the verification *)

(** The rank of a float in the lexicographic order on triples of integers:
    the class (negative infinity, negative, zero, positive, infinity, NaN),
    then exponent and mantissa. *)
Definition rank (x : float) : Z * Z * Z :=
  match x with
  | S754_nan => (3, 0, 0)
  | S754_infinity false => (2, 0, 0)
  | S754_infinity true => (-2, 0, 0)
  | S754_zero _ => (0, 0, 0)
  | S754_finite false m e => (1, e, Z.pos m)
  | S754_finite true m e => (-1, - e, - Z.pos m)
  end.

Definition lex_lt (p q : Z * Z * Z) : Prop :=
  p.1.1 < q.1.1 \/
  (p.1.1 = q.1.1 /\ (p.1.2 < q.1.2 \/ (p.1.2 = q.1.2 /\ p.2 < q.2))).

Definition lex_ltb (p q : Z * Z * Z) : bool :=
  (p.1.1 <? q.1.1) ||
  ((p.1.1 =? q.1.1) && ((p.1.2 <? q.1.2) || ((p.1.2 =? q.1.2) && (p.2 <? q.2)))).

(** [before v a b]: index [a] may stand before index [b] in the reversed
    result of [argsort]: its key is not below the key of [b], and of two
    indices with equivalent keys the larger one comes first. *)
Definition before (v : list float) (a b : nat) : Prop :=
  F64.sort_lt (Np.get v a) (Np.get v b) = false /\
  (F64.sort_lt (Np.get v b) (Np.get v a) = false -> (b < a)%nat).

(** [scores.argsort()[::-1]]. *)
Definition ranked (v : list float) : list nat :=
  Np.insert_all v (seq 0 (length v)).

(** The indices [retrieve] keeps: the positive entries of the first [k]
    ranked indices. *)
Definition selected (v : list float) (k : Z) : list nat :=
  List.filter (fun idx => F64.positive (Np.get v idx)) (slice_to (ranked v) k).

(** A sample query whose relevant index is among the first [k] results. *)
Definition hit (rag : RAG) (k : Z) (sample : string * Z) : bool :=
  py_in sample.2
    (slice_to (map (fun r : nat * float => Z.of_nat r.1) (retrieve rag sample.1 k)) k).

(** The order of the vocabulary: [s < t] on Python strings. *)
Definition term_lt (s t : string) : Prop := String.compare s t = Lt.

(** Every character of a string satisfies [P]. *)
Fixpoint all_chars (P : ascii -> bool) (s : string) : bool :=
  match s with
  | EmptyString => true
  | String c s' => P c && all_chars P s'
  end.

(** A lower-case letter, a digit or an underscore. *)
Definition is_term_char (c : ascii) : bool :=
  Text.is_word_char c && negb (Text.between 65 90 c).

(** [isinstance(data, list)]. *)
Definition is_list (data : json) : bool :=
  match data with JList _ => true | _ => false end.

(** A document with a title and no description. *)
Definition laptop_doc : document := {[ "title"%string := "laptop"%string ]}.

(** The engine built from two copies of [laptop_doc]. *)
Definition two_laptops : RAG :=
  mkRAG [laptop_doc; laptop_doc] ["laptop "; "laptop "]%string ["laptop"%string]
        [F64.one] [[(0%nat, F64.one)]; [(0%nat, F64.one)]].


(** Two documents that share their terms and differ in the counts. *)
Definition phone_doc : document := {[ "title"%string := "laptop phone"%string ]}.

Definition phones_doc : document :=
  {[ "title"%string := "laptop laptop phone"%string ]}.

(** The engine built from [phone_doc] and [phones_doc]. *)
Definition two_phones : RAG :=
  mkRAG [phone_doc; phones_doc] ["laptop phone "; "laptop laptop phone "]%string
        ["laptop"; "phone"]%string [F64.one; F64.one]
        [[(0%nat, S754_finite false 6369051672525772 (-53));
          (1%nat, S754_finite false 6369051672525772 (-53))];
         [(0%nat, S754_finite false 8056283928194521 (-53));
          (1%nat, S754_finite false 8056283928194521 (-54))]].

(** An ASCII character. *)
Definition is_ascii (c : ascii) : bool := (Text.code c <? 128)%N.

(** * Verification *)

(** ** The order on binary64 keys

    Every float is given a rank in the lexicographic order on triples of
    integers; NumPy's sorting order is the strict order of the ranks. *)

Lemma lex_ltb_spec (p q : Z * Z * Z) : lex_ltb p q = true <-> lex_lt p q.
Proof.
  unfold lex_ltb, lex_lt.
  rewrite !orb_true_iff, !andb_true_iff, !orb_true_iff, !andb_true_iff.
  rewrite !Z.ltb_lt, !Z.eqb_eq. tauto.
Qed.

Ltac float_cases :=
  repeat match goal with
         | x : float |- _ => destruct x as [[]|[]| |[] ? ?]
         | x : F64.float |- _ => destruct x as [[]|[]| |[] ? ?]
         end.

Ltac compare_cases :=
  cbn;
  repeat match goal with
         | |- context [Z.compare ?a ?b] => destruct (Z.compare_spec a b); cbn
         | |- context [Pos.compare_cont Eq ?a ?b] =>
             change (Pos.compare_cont Eq a b) with (Pos.compare a b);
             destruct (Pos.compare_spec a b); cbn
         end.

Lemma sort_lt_rank (x y : float) :
  F64.sort_lt x y = lex_ltb (rank x) (rank y).
Proof.
  unfold F64.sort_lt, F64.ltb, SFltb, lex_ltb.
  float_cases; try reflexivity; compare_cases;
    repeat match goal with
           | |- context [Z.ltb ?a ?b] => destruct (Z.ltb_spec a b)
           | |- context [Z.eqb ?a ?b] => destruct (Z.eqb_spec a b)
           end; cbn; try reflexivity; try lia.
Qed.

Lemma sort_lt_iff (x y : float) :
  F64.sort_lt x y = true <-> lex_lt (rank x) (rank y).
Proof. rewrite sort_lt_rank. apply lex_ltb_spec. Qed.

Lemma sort_lt_false_iff (x y : float) :
  F64.sort_lt x y = false <-> ~ lex_lt (rank x) (rank y).
Proof. rewrite <- sort_lt_iff. destruct (F64.sort_lt x y); intuition congruence. Qed.

Lemma sort_lt_asym (a b : float) :
  F64.sort_lt a b = true -> F64.sort_lt b a = false.
Proof.
  rewrite sort_lt_iff, sort_lt_false_iff. unfold lex_lt. lia.
Qed.

Lemma sort_lt_negtrans (a b c : float) :
  F64.sort_lt a b = false -> F64.sort_lt b c = false -> F64.sort_lt a c = false.
Proof.
  rewrite !sort_lt_false_iff. unfold lex_lt. lia.
Qed.

Lemma is_nan_rank (x : float) : F64.is_nan x = false <-> (rank x).1.1 < 3.
Proof. float_cases; cbn; split; intros; try lia; congruence. Qed.

Lemma positive_rank (x : float) :
  F64.positive x = true <-> 1 <= (rank x).1.1 <= 2.
Proof.
  unfold F64.positive, F64.ltb, SFltb.
  float_cases; cbn; split; intros; try lia; congruence.
Qed.

Lemma positive_not_nan (x : float) :
  F64.positive x = true -> F64.is_nan x = false.
Proof. rewrite positive_rank, is_nan_rank. lia. Qed.

(** In the sorting order a number that is not below a positive number is
    positive, unless it is a NaN. *)
Lemma positive_upward (a b : float) :
  F64.sort_lt a b = false -> F64.positive b = true -> F64.is_nan a = false ->
  F64.positive a = true.
Proof.
  rewrite sort_lt_false_iff, !positive_rank, is_nan_rank.
  unfold lex_lt. lia.
Qed.

Lemma ltb_le_sort_lt (a b : float) :
  F64.sort_lt a b = false -> F64.ltb a b = false.
Proof. unfold F64.sort_lt. intros H. apply orb_false_iff in H. tauto. Qed.

Lemma eqb_not_sort_lt (a b : float) :
  F64.eqb a b = true -> F64.sort_lt a b = false /\ F64.sort_lt b a = false.
Proof.
  unfold F64.eqb, SFeqb, F64.sort_lt, F64.ltb, SFltb.
  float_cases; cbn; try discriminate; try (split; reflexivity);
    compare_cases; intros; try discriminate; split; try reflexivity;
    try (exfalso; lia).
  all: subst;
    repeat match goal with
           | |- context [Z.compare ?a ?b] => destruct (Z.compare_spec a b); cbn
           | |- context [Pos.compare_cont Eq ?a ?b] =>
               change (Pos.compare_cont Eq a b) with (Pos.compare a b);
               destruct (Pos.compare_spec a b); cbn
           end; try reflexivity; try lia.
Qed.

(** Between two numbers, [a] not below [b] means [b <= a]. *)
Lemma not_lt_leb (a b : float) :
  F64.is_nan a = false -> F64.is_nan b = false ->
  F64.sort_lt a b = false -> SFleb b a = true.
Proof.
  unfold F64.sort_lt, F64.ltb, SFltb, SFleb.
  float_cases; cbn; try discriminate; try reflexivity; intros _ _;
    compare_cases; intros; try discriminate; try reflexivity.
  all: subst;
    repeat match goal with
           | |- context [Z.compare ?a ?b] => destruct (Z.compare_spec a b); cbn
           | |- context [Pos.compare_cont Eq ?a ?b] =>
               change (Pos.compare_cont Eq a b) with (Pos.compare a b);
               destruct (Pos.compare_spec a b); cbn
           end; try reflexivity; try lia.
Qed.

(** ** The insertion sort behind [argsort] *)

Lemma insert_index_perm (v : list float) (vi : nat) (rs : list nat) :
  Np.insert_index v vi rs ≡ₚ vi :: rs.
Proof.
  induction rs as [|pk rest IH]; simpl; [reflexivity|].
  destruct (F64.sort_lt _ _); [|reflexivity].
  rewrite IH. apply Permutation_swap.
Qed.

Lemma insert_index_sorted (v : list float) (vi : nat) (rs : list nat) :
  StronglySorted (before v) rs ->
  Forall (fun x => (x < vi)%nat) rs ->
  StronglySorted (before v) (Np.insert_index v vi rs).
Proof.
  induction rs as [|pk rest IH]; simpl; intros Hs Hlt.
  - repeat constructor.
  - inversion Hs as [|? ? Hs' Hpk]; subst.
    inversion Hlt as [|? ? Hpk_lt Hlt']; subst.
    destruct (F64.sort_lt (Np.get v vi) (Np.get v pk)) eqn:E.
    + constructor; [auto|].
      rewrite insert_index_perm. constructor; [|assumption].
      split; [apply sort_lt_asym; assumption | congruence].
    + constructor; [assumption|].
      constructor; [split; auto|].
      rewrite Forall_forall in *. intros x Hx.
      destruct (Hpk x Hx) as [Hge _]. split; [|auto].
      eapply sort_lt_negtrans; eassumption.
Qed.

Lemma insert_all_spec (v : list float) (n : nat) :
  Np.insert_all v (seq 0 n) ≡ₚ seq 0 n /\
  StronglySorted (before v) (Np.insert_all v (seq 0 n)).
Proof.
  unfold Np.insert_all. induction n as [|n [IHp IHs]].
  - split; [reflexivity | constructor].
  - rewrite seq_S, fold_left_app. simpl. split.
    + rewrite insert_index_perm, IHp. apply Permutation_cons_append.
    + apply insert_index_sorted; [assumption|].
      rewrite IHp. apply Forall_forall. intros x Hx.
      apply list_elem_of_In, in_seq in Hx. lia.
Qed.

Lemma rev_argsort (v : list float) : rev (Np.argsort v) = ranked v.
Proof. unfold Np.argsort. apply rev_involutive. Qed.

Lemma ranked_perm (v : list float) : ranked v ≡ₚ seq 0 (length v).
Proof. apply insert_all_spec. Qed.

Lemma ranked_sorted (v : list float) : StronglySorted (before v) (ranked v).
Proof. apply insert_all_spec. Qed.

Lemma ranked_NoDup (v : list float) : NoDup (ranked v).
Proof. rewrite ranked_perm. apply NoDup_ListNoDup, List.seq_NoDup. Qed.

Lemma ranked_bound (v : list float) (i : nat) :
  i ∈ ranked v -> (i < length v)%nat.
Proof.
  rewrite ranked_perm. intros H. apply list_elem_of_In, in_seq in H. lia.
Qed.

Lemma length_ranked (v : list float) : length (ranked v) = length v.
Proof. rewrite ranked_perm. apply length_seq. Qed.

(** ** Slices, filters and sorted lists *)

Lemma slice_to_nonneg {A : Type} (l : list A) (k : Z) :
  0 <= k -> slice_to l k = take (Z.to_nat k) l.
Proof. unfold slice_to. intros H. destruct (Z.leb_spec 0 k); [reflexivity | lia]. Qed.

Lemma slice_to_take {A : Type} (l : list A) (k : Z) :
  exists n, slice_to l k = take n l.
Proof. unfold slice_to. destruct (0 <=? k); eauto. Qed.

Lemma slice_to_sublist {A : Type} (l : list A) (k : Z) :
  slice_to l k `sublist_of` l.
Proof. destruct (slice_to_take l k) as [n ->]. apply sublist_take. Qed.

Lemma filter_sublist {A : Type} (f : A -> bool) (l : list A) :
  List.filter f l `sublist_of` l.
Proof.
  induction l as [|a l IH]; simpl; [constructor|].
  destruct (f a); constructor; assumption.
Qed.

Lemma elem_of_filter_bool {A : Type} (f : A -> bool) (l : list A) (x : A) :
  x ∈ List.filter f l <-> x ∈ l /\ f x = true.
Proof. rewrite !list_elem_of_In. apply filter_In. Qed.

Lemma StronglySorted_sublist {A : Type} (R : A -> A -> Prop) (l1 l2 : list A) :
  l1 `sublist_of` l2 -> StronglySorted R l2 -> StronglySorted R l1.
Proof.
  induction 1 as [|x l1 l2 Hsub IH|x l1 l2 Hsub IH]; intros Hs.
  - constructor.
  - inversion Hs as [|? ? Hs' Hx]; subst. constructor; [auto|].
    rewrite Forall_forall in *. intros y Hy. apply Hx.
    eapply elem_of_sublist; eassumption.
  - inversion Hs; subst. auto.
Qed.

Lemma StronglySorted_lookup {A : Type} (R : A -> A -> Prop) (l : list A)
    (i j : nat) (x y : A) :
  StronglySorted R l -> (i < j)%nat ->
  l !! i = Some x -> l !! j = Some y -> R x y.
Proof.
  intros Hs. revert i j. induction Hs as [|a l Hs IH Ha]; intros i j Hij Hi Hj.
  - discriminate.
  - destruct j as [|j]; [lia|]. simpl in Hj. destruct i as [|i]; simpl in Hi.
    + injection Hi as <-. rewrite Forall_forall in Ha. apply Ha.
      eapply list_elem_of_lookup_2; eassumption.
    + eapply IH; [|eassumption..]. lia.
Qed.

(** In a sorted list whose selected elements are closed under [R], the
    selected elements of a prefix are counted by a minimum. *)
Lemma length_filter_take {A : Type} (R : A -> A -> Prop) (f : A -> bool)
    (l : list A) (n : nat) :
  (forall a b, R a b -> f b = true -> f a = true) ->
  StronglySorted R l ->
  length (List.filter f (take n l)) = min n (length (List.filter f l)).
Proof.
  intros Hup Hs. revert n. induction Hs as [|a l Hs IH Ha]; intros n.
  - destruct n; reflexivity.
  - destruct n as [|n]; [reflexivity|]. simpl. destruct (f a) eqn:Efa.
    + simpl. rewrite IH. reflexivity.
    + assert (Hnone : forall l', l' `sublist_of` l -> List.filter f l' = []).
      { intros l' Hl'. destruct (List.filter f l') as [|b r] eqn:E; [reflexivity|].
        assert (Hb : b ∈ List.filter f l') by (rewrite E; left).
        apply elem_of_filter_bool in Hb as [Hb Hfb].
        rewrite Forall_forall in Ha.
        assert (f a = true) by (eapply Hup; [apply Ha|]; eauto using elem_of_sublist).
        congruence. }
      rewrite (Hnone (take n l)) by apply sublist_take.
      rewrite (Hnone l) by reflexivity. simpl. lia.
Qed.

Lemma filter_get_seq (f : float -> bool) (v : list float) :
  length (List.filter (fun i => f (Np.get v i)) (seq 0 (length v)))
  = length (List.filter f v).
Proof.
  assert (H : forall (w : list float) d,
             length (List.filter (fun i => f (nth (i - d) w F64.zero))
                                 (seq d (length w)))
             = length (List.filter f w)).
  { induction w as [|x w IH]; intros d; [reflexivity|].
    cbn [length seq List.filter].
    replace (d - d)%nat with 0%nat by lia. cbn [nth].
    assert (E : List.filter (fun i => f (nth (i - d) (x :: w) F64.zero))
                  (seq (S d) (length w))
                = List.filter (fun i => f (nth (i - S d) w F64.zero))
                    (seq (S d) (length w))).
    { apply filter_ext_in. intros i Hi. apply in_seq in Hi.
      replace (i - d)%nat with (S (i - S d)) by lia. reflexivity. }
    cbn [nth] in E. rewrite E.
    destruct (f x); cbn [length]; rewrite IH; reflexivity. }
  specialize (H v 0%nat). rewrite <- H. f_equal.
  apply filter_ext. intros i. unfold Np.get. rewrite Nat.sub_0_r. reflexivity.
Qed.

(** ** The structure of [retrieve] *)

Lemma retrieve_empty_query (self : RAG) (k : Z) : retrieve self "" k = [].
Proof. reflexivity. Qed.

Lemma retrieve_eq (self : RAG) (query : string) (k : Z) :
  query <> ""%string ->
  retrieve self query k
  = map (fun idx => (idx, Np.get (scores_of self query) idx))
        (selected (scores_of self query) k).
Proof.
  intros Hq. unfold retrieve, selected.
  destruct (String.eqb_spec query ""); [contradiction|].
  cbv zeta. rewrite rev_argsort. reflexivity.
Qed.

Lemma retrieve_cases (self : RAG) (query : string) (k : Z) :
  retrieve self query k = [] \/
  retrieve self query k
  = map (fun idx => (idx, Np.get (scores_of self query) idx))
        (selected (scores_of self query) k).
Proof.
  destruct (String.eqb_spec query "") as [->|Hq]; [left; reflexivity|].
  right. apply retrieve_eq, Hq.
Qed.

Lemma selected_sublist (v : list float) (k : Z) :
  selected v k `sublist_of` ranked v.
Proof.
  unfold selected. etransitivity; [apply filter_sublist | apply slice_to_sublist].
Qed.

Lemma selected_sorted (v : list float) (k : Z) :
  StronglySorted (before v) (selected v k).
Proof.
  eapply StronglySorted_sublist; [apply selected_sublist | apply ranked_sorted].
Qed.

Lemma selected_NoDup (v : list float) (k : Z) : NoDup (selected v k).
Proof. eapply sublist_NoDup; [apply ranked_NoDup | apply selected_sublist]. Qed.

Lemma selected_bound (v : list float) (k : Z) (i : nat) :
  i ∈ selected v k -> (i < length v)%nat.
Proof.
  intros H. apply ranked_bound. eapply elem_of_sublist; [eassumption|].
  apply selected_sublist.
Qed.

Lemma selected_positive (v : list float) (k : Z) (i : nat) :
  i ∈ selected v k -> F64.positive (Np.get v i) = true.
Proof. unfold selected. rewrite elem_of_filter_bool. tauto. Qed.

Lemma retrieve_lookup (self : RAG) (query : string) (k : Z) (i idx : nat) (s : float) :
  retrieve self query k !! i = Some (idx, s) ->
  selected (scores_of self query) k !! i = Some idx /\
  s = Np.get (scores_of self query) idx.
Proof.
  destruct (retrieve_cases self query k) as [E|E]; rewrite E; [discriminate|].
  rewrite list_lookup_fmap.
  destruct (selected _ _ !! i) as [a|]; simpl; [|discriminate].
  intros [= <- <-]. auto.
Qed.

Lemma retrieve_elem (self : RAG) (query : string) (k : Z) (idx : nat) (s : float) :
  (idx, s) ∈ retrieve self query k ->
  idx ∈ selected (scores_of self query) k /\
  s = Np.get (scores_of self query) idx.
Proof.
  intros H. apply list_elem_of_lookup_1 in H as [i Hi].
  apply retrieve_lookup in Hi as [Hi ->]. split; [|reflexivity].
  eapply list_elem_of_lookup_2; eassumption.
Qed.

Lemma map_fst_retrieve (self : RAG) (query : string) (k : Z) :
  map fst (retrieve self query k) = [] \/
  map fst (retrieve self query k) = selected (scores_of self query) k.
Proof.
  destruct (retrieve_cases self query k) as [E|E]; rewrite E; [left; reflexivity|].
  right. rewrite map_map. simpl. apply map_id.
Qed.

Lemma length_scores_of (self : RAG) (query : string) :
  length (scores_of self query) = length (doc_vectors self).
Proof. unfold scores_of, Sk.linear_kernel. apply length_map. Qed.

(** ** The constructor *)

Lemma fit_transform_Ok (np_log : float -> float) (texts : list string)
    (vocabulary : list string) (idf : list float) (X : list Sk.row) :
  Sk.fit_transform np_log texts = Ok (vocabulary, idf, X) ->
  vocabulary = Sk.sorted_terms (concat (map Text.analyzer texts)) /\
  vocabulary <> [] /\
  length idf = length vocabulary /\
  length X = length texts.
Proof.
  unfold Sk.fit_transform.
  destruct (Sk.sorted_terms _) as [|t vocab] eqn:E; [discriminate|].
  intros [= <- <- <-].
  split; [reflexivity|]. split; [discriminate|].
  split; simpl; rewrite ?length_map; reflexivity.
Qed.

Lemma RAG_init_Ok (np_log : float -> float) (documents : list document) (self : RAG) :
  RAG_init np_log documents = Ok self ->
  docs self = documents /\
  texts self = map text_of documents /\
  length (doc_vectors self) = length (docs self) /\
  vocabulary_ self <> [].
Proof.
  unfold RAG_init.
  destruct (Sk.fit_transform _ _) as [[[vocab idf] X]|e] eqn:E; simpl; [|discriminate].
  intros [= <-]. simpl. apply fit_transform_Ok in E as (_ & Hv & _ & HX).
  rewrite length_map in HX. auto.
Qed.

Lemma count_row_nil (i : nat) (vocabulary : list string) :
  Sk.count_row i vocabulary [] = [].
Proof. revert i. induction vocabulary as [|t v IH]; intros i; simpl; auto. Qed.

Lemma transform_empty (vocabulary : list string) (idf : list float) :
  Sk.transform vocabulary idf "" = [].
Proof.
  unfold Sk.transform.
  change (Text.analyzer "") with (@nil string).
  rewrite count_row_nil. reflexivity.
Qed.

Lemma scores_of_empty_query (self : RAG) :
  List.filter F64.positive (scores_of self "") = [].
Proof.
  unfold scores_of. rewrite transform_empty. unfold Sk.linear_kernel.
  induction (doc_vectors self) as [|d ds IH]; [reflexivity|].
  simpl. exact IH.
Qed.

Lemma length_filter_perm {A : Type} (f : A -> bool) (l l' : list A) :
  l ≡ₚ l' -> length (List.filter f l) = length (List.filter f l').
Proof.
  induction 1 as [|x l l' _ IH|x y l|l l' l'' _ IH1 _ IH2]; simpl.
  - reflexivity.
  - destruct (f x); simpl; congruence.
  - destruct (f x), (f y); reflexivity.
  - congruence.
Qed.

Lemma get_not_nan (v : list float) (i : nat) :
  Forall (fun x => F64.is_nan x = false) v -> F64.is_nan (Np.get v i) = false.
Proof.
  intros Hv. unfold Np.get.
  destruct (nth_in_or_default i v F64.zero) as [Hin| ->]; [|reflexivity].
  rewrite Forall_forall in Hv. apply Hv, list_elem_of_In, Hin.
Qed.

(** The number of selected indices, when no score is a NaN. *)
Lemma length_selected (v : list float) (k : Z) :
  0 <= k ->
  Forall (fun x => F64.is_nan x = false) v ->
  length (selected v k)
  = Nat.min (Z.to_nat k) (length (List.filter F64.positive v)).
Proof.
  intros Hk Hv. unfold selected. rewrite slice_to_nonneg by assumption.
  rewrite (length_filter_take (before v)).
  - rewrite (length_filter_perm _ _ _ (ranked_perm v)), filter_get_seq.
    reflexivity.
  - intros a b [Hab _] Hb. eapply positive_upward; eauto using get_not_nan.
  - apply ranked_sorted.
Qed.

(** Two entries of one result: both scores are positive, the earlier one
    is not smaller, and of two equal scores the earlier one belongs to
    the larger index. *)
Lemma retrieve_ordered (self : RAG) (query : string) (k : Z)
    (i j a b : nat) (s t : float) :
  (i < j)%nat ->
  retrieve self query k !! i = Some (a, s) ->
  retrieve self query k !! j = Some (b, t) ->
  SFleb t s = true /\ (F64.eqb s t = true -> (b < a)%nat).
Proof.
  intros Hij Hi Hj.
  apply retrieve_lookup in Hi as [Hi ->]. apply retrieve_lookup in Hj as [Hj ->].
  set (v := scores_of self query) in *.
  destruct (StronglySorted_lookup _ _ _ _ _ _ (selected_sorted v k) Hij Hi Hj)
    as [Hge Htie].
  assert (Ha : F64.positive (Np.get v a) = true)
    by (eapply selected_positive, list_elem_of_lookup_2; eassumption).
  assert (Hb : F64.positive (Np.get v b) = true)
    by (eapply selected_positive, list_elem_of_lookup_2; eassumption).
  split.
  - apply not_lt_leb; auto using positive_not_nan.
  - intros E. apply Htie. apply eqb_not_sort_lt in E. tauto.
Qed.

Lemma retrieve_positive (self : RAG) (query : string) (k : Z) :
  Forall (fun p => F64.positive p.2 = true) (retrieve self query k).
Proof.
  apply Forall_forall. intros [idx s] H. apply retrieve_elem in H as [H ->].
  simpl. eapply selected_positive, H.
Qed.

(** ** Sample engines *)

Lemma two_laptops_built : RAG_init log_at_one [laptop_doc; laptop_doc] = Ok two_laptops.
Proof. vm_compute. reflexivity. Qed.

Lemma two_phones_built : RAG_init log_at_one [phone_doc; phones_doc] = Ok two_phones.
Proof. vm_compute. reflexivity. Qed.

(** ** The empty collection *)

Lemma RAG_init_nil (np_log : float -> float) :
  RAG_init np_log []
  = Raise (ValueError "empty vocabulary; perhaps the documents only contain stop words").
Proof. reflexivity. Qed.

(** C1, as the code behaves: [RAG.__init__] on an empty collection raises
    the [ValueError] of [fit_transform] (empty vocabulary).  No engine is
    built from zero documents: every engine the constructor returns holds
    at least one document, and one vector for each document. *)
Theorem C1_empty_collection_rejected (np_log : float -> float)
    (documents : list document) (self : RAG) :
  RAG_init np_log documents = Ok self ->
  RAG_init np_log [] = Raise (ValueError "empty vocabulary; perhaps the documents only contain stop words")
  /\ documents <> []
  /\ docs self <> []
  /\ doc_vectors self <> [].
Proof.
  intros Hinit. split; [apply RAG_init_nil|].
  assert (Hne : documents <> []).
  { intros ->. rewrite RAG_init_nil in Hinit. discriminate. }
  apply RAG_init_Ok in Hinit as (Hdocs & _ & Hlen & _).
  split; [exact Hne|]. split; [rewrite Hdocs; exact Hne|].
  intros E. rewrite E, Hdocs in Hlen. destruct documents; [congruence | discriminate].
Qed.

Lemma C1_empty_collection_rejected_witness :
  RAG_init log_at_one [] = Raise (ValueError "empty vocabulary; perhaps the documents only contain stop words")
  /\ [laptop_doc; laptop_doc] <> []
  /\ docs two_laptops <> []
  /\ doc_vectors two_laptops <> [].
Proof.
  apply (C1_empty_collection_rejected log_at_one [laptop_doc; laptop_doc] two_laptops).
  vm_compute. reflexivity.
Defined.

(** C1, the claim as written fails: building the engine from the empty
    collection does not succeed. *)
Lemma C1_empty_collection_raises :
  ~ exists self : RAG, RAG_init log_at_one [] = Ok self.
Proof. intros [self H]. rewrite RAG_init_nil in H. discriminate. Qed.

(** ** Order of the results *)

(** C2, as the code behaves: the scores of the returned entries never
    increase from one position to a later one.  The order of entries with
    equal scores is left to NumPy's default [argsort], which is not a
    stable sort; it is not the ascending order of the document indices. *)
Theorem C2_sorted_by_score_descending (self : RAG) (query : string) (k : Z)
    (i j a b : nat) (s t : float) :
  (i < j)%nat ->
  retrieve self query k !! i = Some (a, s) ->
  retrieve self query k !! j = Some (b, t) ->
  SFleb t s = true.
Proof.
  intros Hij Hi Hj.
  apply (retrieve_ordered self query k i j a b s t Hij Hi Hj).
Qed.

Lemma C2_sorted_by_score_descending_witness :
  SFleb (S754_finite false 6369051672525772 (-53))
        (S754_finite false 8056283928194521 (-53)) = true.
Proof.
  apply (C2_sorted_by_score_descending two_phones "laptop" 2 0 1 1 0
           (S754_finite false 8056283928194521 (-53))
           (S754_finite false 6369051672525772 (-53)));
    [lia | vm_compute; reflexivity | vm_compute; reflexivity].
Defined.

(** C2, the claim as written fails: two documents with the same text get
    the same score, and the one with the larger index is returned first
    (on two equal scores the sort leaves the indices in place, and the
    reversal puts the second before the first). *)
Lemma C2_tie_larger_index_first :
  exists self : RAG,
    RAG_init log_at_one [laptop_doc; laptop_doc] = Ok self /\
    retrieve self "laptop" 2 = [(1%nat, F64.one); (0%nat, F64.one)].
Proof. exists two_laptops. split; vm_compute; reflexivity. Qed.

(** ** Length of the results *)

(** C3: for [k >= 0], and when no score is a NaN, [retrieve] returns
    [min(k, number of documents with a positive score)] entries; so at most
    [k] entries, none for [k = 0], and every returned score is positive. *)
Theorem C3_length_is_min (self : RAG) (query : string) (k : Z) :
  0 <= k ->
  Forall (fun x => F64.is_nan x = false) (scores_of self query) ->
  length (retrieve self query k)
  = Nat.min (Z.to_nat k) (length (List.filter F64.positive (scores_of self query)))
  /\ Z.of_nat (length (retrieve self query k)) <= k
  /\ retrieve self query 0 = []
  /\ Forall (fun p => F64.positive p.2 = true) (retrieve self query k).
Proof.
  intros Hk Hnan.
  assert (Hlen : length (retrieve self query k)
                 = Nat.min (Z.to_nat k)
                     (length (List.filter F64.positive (scores_of self query)))).
  { destruct (String.eqb_spec query "") as [->|Hq].
    - rewrite scores_of_empty_query. simpl. rewrite Nat.min_0_r. reflexivity.
    - rewrite retrieve_eq by assumption. rewrite length_map.
      apply length_selected; assumption. }
  split; [exact Hlen|]. split; [lia|]. split; [|apply retrieve_positive].
  destruct (retrieve_cases self query 0) as [E|E]; [exact E|].
  rewrite E. reflexivity.
Qed.

Lemma C3_length_is_min_witness :
  length (retrieve two_laptops "laptop" 1)
  = Nat.min (Z.to_nat 1)
      (length (List.filter F64.positive (scores_of two_laptops "laptop")))
  /\ Z.of_nat (length (retrieve two_laptops "laptop" 1)) <= 1
  /\ retrieve two_laptops "laptop" 0 = []
  /\ Forall (fun p => F64.positive p.2 = true) (retrieve two_laptops "laptop" 1).
Proof.
  apply (C3_length_is_min two_laptops "laptop" 1); [lia|].
  vm_compute. repeat constructor.
Defined.

(** C4: the empty query is answered with the empty list, for every engine
    state and every [k]; no error is raised on that path. *)
Theorem C4_empty_query (self : RAG) (k : Z) : retrieve self "" k = [].
Proof. apply retrieve_empty_query. Qed.

(** ** [load_docs] *)

(** C5: when the file parses to [data], [load_docs] raises
    [ValueError("documents JSON must contain a list")] exactly when [data]
    is not a list; when [data] is a list it returns that list itself, so the
    length, the order and the records are those of the file. *)
Theorem C5_load_docs (read_json : string -> result json) (path : string) (data : json) :
  read_json path = Ok data ->
  (load_docs read_json path
   = Raise (ValueError "documents JSON must contain a list")
   <-> is_list data = false)
  /\ (forall items, data = JList items -> load_docs read_json path = Ok items).
Proof.
  intros H. unfold load_docs. rewrite H. simpl. split.
  - destruct data; simpl; split; intros; try reflexivity; try discriminate.
  - intros items ->. reflexivity.
Qed.

Lemma C5_load_docs_witness :
  (load_docs (fun _ => Ok (JList [JStr "a"; JInt 1])) "docs.json"
   = Raise (ValueError "documents JSON must contain a list")
   <-> is_list (JList [JStr "a"; JInt 1]) = false)
  /\ (forall items, JList [JStr "a"; JInt 1] = JList items ->
      load_docs (fun _ => Ok (JList [JStr "a"; JInt 1])) "docs.json" = Ok items).
Proof.
  apply (C5_load_docs (fun _ => Ok (JList [JStr "a"; JInt 1])) "docs.json"
           (JList [JStr "a"; JInt 1])).
  reflexivity.
Defined.

(** ** [answer] *)

Lemma retrieve_index_bound (np_log : float -> float) (documents : list document)
    (self : RAG) (query : string) (k : Z) (idx : nat) (s : float) :
  RAG_init np_log documents = Ok self ->
  (idx, s) ∈ retrieve self query k ->
  (idx < length (docs self))%nat.
Proof.
  intros Hinit H. apply RAG_init_Ok in Hinit as (_ & _ & Hlen & _).
  apply retrieve_elem in H as [H _]. apply selected_bound in H.
  rewrite length_scores_of in H. lia.
Qed.

(** C6: on an engine built by the constructor, [answer] returns the
    fallback string (which is not empty) when [retrieve] returns no entry,
    and otherwise the title and the description of the document of the
    first entry, joined by a colon and a space, a missing field counting as
    the empty string. *)
Theorem C6_answer (np_log : float -> float) (documents : list document)
    (self : RAG) (query : string) (k : Z) :
  RAG_init np_log documents = Ok self ->
  (retrieve self query k = [] -> answer self query k = Ok fallback)
  /\ (forall idx s rest,
        retrieve self query k = (idx, s) :: rest ->
        exists doc,
          docs self !! idx = Some doc /\
          answer self query k
          = Ok (default ""%string (doc !! "title"%string) +:+ ": "
                +:+ default ""%string (doc !! "description"%string)))
  /\ fallback <> ""%string.
Proof.
  intros Hinit. split; [|split; [|discriminate]].
  - intros E. unfold answer. rewrite E. reflexivity.
  - intros idx s rest E.
    assert (Hb : (idx < length (docs self))%nat).
    { eapply retrieve_index_bound; [eassumption|]. rewrite E. left. }
    apply lookup_lt_is_Some_2 in Hb as [doc Hdoc].
    exists doc. split; [assumption|].
    unfold answer. rewrite E, Hdoc. reflexivity.
Qed.

Lemma C6_answer_witness :
  (retrieve two_laptops "laptop" 1 = [] -> answer two_laptops "laptop" 1 = Ok fallback)
  /\ (forall idx s rest,
        retrieve two_laptops "laptop" 1 = (idx, s) :: rest ->
        exists doc,
          docs two_laptops !! idx = Some doc /\
          answer two_laptops "laptop" 1
          = Ok (default ""%string (doc !! "title"%string) +:+ ": "
                +:+ default ""%string (doc !! "description"%string)))
  /\ fallback <> ""%string.
Proof.
  apply (C6_answer log_at_one [laptop_doc; laptop_doc] two_laptops "laptop" 1).
  vm_compute. reflexivity.
Defined.

(** ** [precision_at_k] *)

Lemma py_in_elem_of (x : Z) (l : list Z) : py_in x l = true <-> x ∈ l.
Proof.
  unfold py_in. rewrite existsb_exists. split.
  - intros (y & Hy & E). apply Z.eqb_eq in E. subst. apply list_elem_of_In, Hy.
  - intros H. exists x. split; [apply list_elem_of_In, H | apply Z.eqb_refl].
Qed.

Lemma one_neq_zero : F64.one <> F64.zero.
Proof. discriminate. Qed.

Lemma precision_at_k_one (ranking : list Z) (relevant_index k : Z) :
  precision_at_k ranking relevant_index k = F64.one
  <-> relevant_index ∈ slice_to ranking k.
Proof.
  unfold precision_at_k. rewrite <- py_in_elem_of.
  destruct (py_in _ _); split; intros; try reflexivity; discriminate.
Qed.

Lemma precision_at_k_zero (ranking : list Z) (relevant_index k : Z) :
  precision_at_k ranking relevant_index k = F64.zero
  <-> relevant_index ∉ slice_to ranking k.
Proof.
  unfold precision_at_k. rewrite <- py_in_elem_of.
  destruct (py_in _ _); split; intros; try reflexivity; try discriminate;
    congruence.
Qed.

(** C7: for [k >= 0], [precision_at_k] is [1.0] when [relevant_index] is
    among the first [k] elements of [ranking] and [0.0] when it is not;
    [k = 0] gives [0.0], and the three examples evaluate as stated. *)
Theorem C7_precision_at_k (ranking : list Z) (relevant_index k : Z) :
  0 <= k ->
  (relevant_index ∈ take (Z.to_nat k) ranking ->
   precision_at_k ranking relevant_index k = F64.one)
  /\ (relevant_index ∉ take (Z.to_nat k) ranking ->
      precision_at_k ranking relevant_index k = F64.zero)
  /\ precision_at_k ranking relevant_index 0 = F64.zero
  /\ precision_at_k [5; 2; 1] 2 2 = F64.one
  /\ precision_at_k [5; 2; 1] 1 1 = F64.zero
  /\ precision_at_k [] 0 3 = F64.zero.
Proof.
  intros Hk. rewrite <- (slice_to_nonneg ranking k Hk).
  split; [apply precision_at_k_one|]. split; [apply precision_at_k_zero|].
  repeat split; reflexivity.
Qed.

Lemma C7_precision_at_k_witness :
  (2 ∈ take (Z.to_nat 2) [5; 2; 1] -> precision_at_k [5; 2; 1] 2 2 = F64.one)
  /\ (2 ∉ take (Z.to_nat 2) [5; 2; 1] -> precision_at_k [5; 2; 1] 2 2 = F64.zero)
  /\ precision_at_k [5; 2; 1] 2 0 = F64.zero
  /\ precision_at_k [5; 2; 1] 2 2 = F64.one
  /\ precision_at_k [5; 2; 1] 1 1 = F64.zero
  /\ precision_at_k [] 0 3 = F64.zero.
Proof. apply (C7_precision_at_k [5; 2; 1] 2 2). lia. Defined.

(** ** Range of the scores *)





(** ** Validity of the indices *)

(** C9: on an engine built by the constructor, every returned index is a
    position of the document list, no index is returned twice, and the
    lookup [self.docs[idx]] of [answer] does not raise [IndexError]. *)
Theorem C9_indices_valid (np_log : float -> float) (documents : list document)
    (self : RAG) (query : string) (k : Z) :
  RAG_init np_log documents = Ok self ->
  Forall (fun p => (p.1 < length (docs self))%nat) (retrieve self query k)
  /\ NoDup (map fst (retrieve self query k))
  /\ answer self query k <> Raise IndexError.
Proof.
  intros Hinit. split; [|split].
  - apply Forall_forall. intros [idx s] H. simpl.
    eapply retrieve_index_bound; eassumption.
  - destruct (map_fst_retrieve self query k) as [E|E]; rewrite E;
      [constructor | apply selected_NoDup].
  - unfold answer. destruct (retrieve self query k) as [|[idx s] rest] eqn:E;
      [discriminate|].
    assert (Hb : (idx < length (docs self))%nat).
    { eapply (retrieve_index_bound _ _ _ query k idx s); [eassumption|].
      rewrite E. left. }
    apply lookup_lt_is_Some_2 in Hb as [doc ->]. discriminate.
Qed.

Lemma C9_indices_valid_witness :
  Forall (fun p => (p.1 < length (docs two_laptops))%nat) (retrieve two_laptops "laptop" 2)
  /\ NoDup (map fst (retrieve two_laptops "laptop" 2))
  /\ answer two_laptops "laptop" 2 <> Raise IndexError.
Proof.
  apply (C9_indices_valid log_at_one [laptop_doc; laptop_doc] two_laptops "laptop" 2).
  vm_compute. reflexivity.
Defined.

(** ** Negative cut-offs *)

(** C10: for a negative [k] the slice [ranking[:k]] holds all but the last
    [-k] elements, and [precision_at_k] is [1.0] exactly when
    [relevant_index] is among them; so [precision_at_k([5, 2, 1], 5, -1)]
    is [1.0].  For [k = 0] the result is [0.0]. *)
Theorem C10_negative_cutoff (ranking : list Z) (relevant_index k : Z) :
  k < 0 ->
  (precision_at_k ranking relevant_index k = F64.one
   <-> relevant_index ∈ take (length ranking - Z.to_nat (- k)) ranking)
  /\ (precision_at_k ranking relevant_index k = F64.zero
      <-> relevant_index ∉ take (length ranking - Z.to_nat (- k)) ranking)
  /\ precision_at_k [5; 2; 1] 5 (-1) = F64.one
  /\ precision_at_k ranking relevant_index 0 = F64.zero.
Proof.
  intros Hk.
  assert (E : slice_to ranking k = take (length ranking - Z.to_nat (- k)) ranking).
  { unfold slice_to. destruct (Z.leb_spec 0 k); [lia|]. f_equal. lia. }
  rewrite <- E.
  split; [apply precision_at_k_one|]. split; [apply precision_at_k_zero|].
  split; reflexivity.
Qed.

Lemma C10_negative_cutoff_witness :
  (precision_at_k [5; 2; 1] 5 (-1) = F64.one
   <-> 5 ∈ take (length [5; 2; 1] - Z.to_nat (- (-1))) [5; 2; 1])
  /\ (precision_at_k [5; 2; 1] 5 (-1) = F64.zero
      <-> 5 ∉ take (length [5; 2; 1] - Z.to_nat (- (-1))) [5; 2; 1])
  /\ precision_at_k [5; 2; 1] 5 (-1) = F64.one
  /\ precision_at_k [5; 2; 1] 5 0 = F64.zero.
Proof. apply (C10_negative_cutoff [5; 2; 1] 5 (-1)). lia. Defined.

(** * Further properties of the code *)

(** ** [load_docs]: the outcomes *)

(** [load_docs] returns a list exactly when the file parses to that
    list. *)
Theorem load_docs_Ok_iff (read_json : string -> result json) (path : string)
    (items : list json) :
  load_docs read_json path = Ok items <-> read_json path = Ok (JList items).
Proof.
  unfold load_docs. destruct (read_json path) as [data|e]; simpl.
  - destruct data; split; intros H; try discriminate; congruence.
  - split; discriminate.
Qed.

(** [load_docs] raises the errors of opening and parsing unchanged, and
    beyond them only the [ValueError] for a parsed value that is not a
    list. *)
Theorem load_docs_Raise_iff (read_json : string -> result json) (path : string)
    (e : exn) :
  load_docs read_json path = Raise e <->
  read_json path = Raise e \/
  (e = ValueError "documents JSON must contain a list" /\
   exists data, read_json path = Ok data /\ is_list data = false).
Proof.
  unfold load_docs. destruct (read_json path) as [data|e']; simpl.
  - split.
    + intros H. right. destruct data; try discriminate;
        (split; [congruence | eexists; split; reflexivity]).
    + intros [H|[He Hd]]; [discriminate|].
      destruct Hd as (data' & Hd & Hl). injection Hd as <-. subst e.
      destruct data; try discriminate; reflexivity.
  - split; [intros [= ->]; left; reflexivity|].
    intros [[= ->]|[He Hd]]; [reflexivity|].
    destruct Hd as (data & Hd & Hl). discriminate.
Qed.

(** ** [RAG.__init__]: what the constructor establishes *)

(** A built engine keeps the documents in the order given, holds one text
    and one vector for each of them, one idf weight for each vocabulary
    term, and has a vocabulary that is not empty. *)
Theorem RAG_init_invariant (np_log : float -> float) (documents : list document)
    (self : RAG) :
  RAG_init np_log documents = Ok self ->
  docs self = documents
  /\ texts self = map text_of documents
  /\ length (doc_vectors self) = length documents
  /\ length (idf_ self) = length (vocabulary_ self)
  /\ vocabulary_ self <> [].
Proof.
  unfold RAG_init.
  destruct (Sk.fit_transform _ _) as [[[vocab idf] X]|e] eqn:E; simpl; [|discriminate].
  intros [= <-]. simpl. apply fit_transform_Ok in E as (_ & Hv & Hidf & HX).
  rewrite length_map in HX. auto.
Qed.

Lemma RAG_init_invariant_witness :
  docs two_laptops = [laptop_doc; laptop_doc]
  /\ texts two_laptops = map text_of [laptop_doc; laptop_doc]
  /\ length (doc_vectors two_laptops) = length [laptop_doc; laptop_doc]
  /\ length (idf_ two_laptops) = length (vocabulary_ two_laptops)
  /\ vocabulary_ two_laptops <> [].
Proof.
  apply (RAG_init_invariant log_at_one [laptop_doc; laptop_doc] two_laptops).
  vm_compute. reflexivity.
Defined.

Lemma insert_term_not_nil (t : string) (v : list string) : Sk.insert_term t v <> [].
Proof. destruct v as [|u v]; simpl; [|destruct (String.compare t u)]; discriminate. Qed.

Lemma sorted_terms_nil (tokens : list string) :
  Sk.sorted_terms tokens = [] <-> tokens = [].
Proof.
  destruct tokens as [|t tokens]; simpl; [tauto|].
  split; [|discriminate]. intros H. exfalso. eapply insert_term_not_nil, H.
Qed.

Lemma concat_map_nil {A B : Type} (f : A -> list B) (l : list A) :
  concat (map f l) = [] <-> Forall (fun x => f x = []) l.
Proof.
  induction l as [|x l IH]; simpl.
  - split; [constructor | reflexivity].
  - rewrite Forall_cons, <- IH. split.
    + intros H. apply app_eq_nil in H. exact H.
    + intros [-> ->]. reflexivity.
Qed.

Lemma RAG_init_fails_iff (np_log : float -> float) (documents : list document)
    (e : exn) :
  RAG_init np_log documents = Raise e <->
  e = ValueError "empty vocabulary; perhaps the documents only contain stop words"
  /\ Forall (fun doc => Text.analyzer (text_of doc) = []) documents.
Proof.
  unfold RAG_init, Sk.fit_transform.
  destruct (Sk.sorted_terms _) as [|t vocab] eqn:E; simpl.
  - apply (proj1 (sorted_terms_nil _)) in E. rewrite map_map in E.
    apply (proj1 (concat_map_nil _ _)) in E.
    split; [intros [= <-]; auto | intros [-> _]; reflexivity].
  - split; [discriminate|]. intros [_ H]. exfalso.
    apply (proj2 (concat_map_nil (fun doc => Text.analyzer (text_of doc)) _)) in H.
    rewrite map_map in E. rewrite H in E. discriminate.
Qed.

(** The constructor fails exactly when no document has an indexable term
    (every title and description is empty or made of stop words and
    one-character words), and then with the [ValueError] of the
    vectorizer; it raises nothing else. *)
Theorem RAG_init_Raise_iff (np_log : float -> float) (documents : list document)
    (e : exn) :
  RAG_init np_log documents = Raise e <->
  e = ValueError "empty vocabulary; perhaps the documents only contain stop words"
  /\ Forall (fun doc => Text.analyzer (text_of doc) = []) documents.
Proof. apply RAG_init_fails_iff. Qed.

(** ** The vocabulary *)

Lemma compare_OT (s t : string) : String.compare s t = String_as_OT.compare s t.
Proof.
  revert t. induction s as [|a s IH]; intros [|b t]; simpl; reflexivity.
Qed.

Lemma term_lt_trans (s t u : string) : term_lt s t -> term_lt t u -> term_lt s u.
Proof.
  unfold term_lt. rewrite !compare_OT.
  apply (StrictOrder_Transitive (R := String_as_OT.lt)).
Qed.

Lemma term_lt_irrefl (s : string) : ~ term_lt s s.
Proof.
  unfold term_lt. rewrite compare_OT.
  apply (StrictOrder_Irreflexive (R := String_as_OT.lt)).
Qed.

Lemma insert_term_elem (x t : string) (v : list string) :
  x ∈ Sk.insert_term t v <-> x = t \/ x ∈ v.
Proof.
  induction v as [|u v IH]; simpl.
  - rewrite list_elem_of_singleton, elem_of_nil. tauto.
  - destruct (String.compare t u) eqn:E.
    + apply String.compare_eq_iff in E as ->. rewrite elem_of_cons. tauto.
    + rewrite !elem_of_cons. tauto.
    + rewrite !elem_of_cons, IH. tauto.
Qed.

Lemma insert_term_sorted (t : string) (v : list string) :
  StronglySorted term_lt v -> StronglySorted term_lt (Sk.insert_term t v).
Proof.
  induction v as [|u v IH]; simpl; intros Hs.
  - repeat constructor.
  - inversion Hs as [|? ? Hs' Hu]; subst.
    destruct (String.compare t u) eqn:E.
    + exact Hs.
    + constructor; [exact Hs|]. constructor; [exact E|].
      eapply Forall_impl; [exact Hu|]. intros x Hx. eapply term_lt_trans; eassumption.
    + constructor; [auto|]. apply Forall_forall. intros x Hx.
      apply insert_term_elem in Hx as [->|Hx].
      * unfold term_lt. rewrite String.compare_antisym, E. reflexivity.
      * rewrite Forall_forall in Hu. auto.
Qed.

Lemma sorted_terms_sorted (tokens : list string) :
  StronglySorted term_lt (Sk.sorted_terms tokens).
Proof.
  induction tokens as [|t tokens IH]; simpl; [constructor|].
  apply insert_term_sorted, IH.
Qed.

Lemma sorted_terms_elem (x : string) (tokens : list string) :
  x ∈ Sk.sorted_terms tokens <-> x ∈ tokens.
Proof.
  induction tokens as [|t tokens IH]; simpl; [reflexivity|].
  rewrite insert_term_elem, elem_of_cons, IH. reflexivity.
Qed.

Lemma sorted_NoDup (v : list string) : StronglySorted term_lt v -> NoDup v.
Proof.
  induction 1 as [|u v Hs IH Hu]; constructor; [|exact IH].
  intros Hin. rewrite Forall_forall in Hu. eapply term_lt_irrefl, Hu, Hin.
Qed.

(** The vocabulary of a built engine is strictly increasing in the order
    of Python strings, so it has no duplicates, and its terms are exactly
    the tokens that the analyzer finds in the documents. *)
Theorem vocabulary_sorted (np_log : float -> float) (documents : list document)
    (self : RAG) :
  RAG_init np_log documents = Ok self ->
  StronglySorted term_lt (vocabulary_ self)
  /\ NoDup (vocabulary_ self)
  /\ forall t, t ∈ vocabulary_ self <->
               exists doc, doc ∈ documents /\ t ∈ Text.analyzer (text_of doc).
Proof.
  unfold RAG_init.
  destruct (Sk.fit_transform _ _) as [[[vocab idf] X]|e] eqn:E; simpl; [|discriminate].
  intros [= <-]. simpl. apply fit_transform_Ok in E as (-> & _).
  split; [apply sorted_terms_sorted|].
  split; [apply sorted_NoDup, sorted_terms_sorted|].
  intros t. rewrite sorted_terms_elem, map_map, list_elem_of_In, in_concat.
  split.
  - intros (l & Hl & Ht). apply in_map_iff in Hl as (doc & <- & Hdoc).
    exists doc. rewrite !list_elem_of_In. auto.
  - intros (doc & Hdoc & Ht). rewrite !list_elem_of_In in *.
    exists (Text.analyzer (text_of doc)). split; [|exact Ht].
    apply in_map_iff. eauto.
Qed.

Lemma vocabulary_sorted_witness :
  StronglySorted term_lt (vocabulary_ two_laptops)
  /\ NoDup (vocabulary_ two_laptops)
  /\ forall t, t ∈ vocabulary_ two_laptops <->
               exists doc, doc ∈ [laptop_doc; laptop_doc]
                           /\ t ∈ Text.analyzer (text_of doc).
Proof.
  apply (vocabulary_sorted log_at_one [laptop_doc; laptop_doc] two_laptops).
  vm_compute. reflexivity.
Defined.

(** ** The analyzer *)

Lemma all_chars_app (P : ascii -> bool) (a b : string) :
  all_chars P (a +:+ b) = all_chars P a && all_chars P b.
Proof.
  induction a as [|c a IH]; simpl; [reflexivity|].
  rewrite IH, andb_assoc. reflexivity.
Qed.

(** Every run consists of word characters. *)
Lemma runs_word_chars (s cur : string) :
  all_chars Text.is_word_char cur = true ->
  Forall (fun w => all_chars Text.is_word_char w = true) (Text.runs s cur).
Proof.
  revert cur. induction s as [|c s IH]; simpl; intros cur Hcur.
  - repeat constructor. exact Hcur.
  - destruct (Text.is_word_char c) eqn:E.
    + apply IH. rewrite all_chars_app, Hcur. simpl. rewrite E. reflexivity.
    + constructor; [exact Hcur | apply IH; reflexivity].
Qed.

(** A property of all characters of the text holds of all characters of
    its runs. *)
Lemma runs_all_chars (P : ascii -> bool) (s cur : string) :
  all_chars P cur = true -> all_chars P s = true ->
  Forall (fun w => all_chars P w = true) (Text.runs s cur).
Proof.
  revert cur. induction s as [|c s IH]; simpl; intros cur Hcur Hs.
  - repeat constructor. exact Hcur.
  - apply andb_true_iff in Hs as [Hc Hs].
    destruct (Text.is_word_char c).
    + apply IH; [|exact Hs]. rewrite all_chars_app, Hcur. simpl. rewrite Hc. reflexivity.
    + constructor; [exact Hcur | apply IH; [reflexivity | exact Hs]].
Qed.

Lemma lower_char_not_upper (c : ascii) :
  Text.between 65 90 (Text.lower_char c) = false.
Proof.
  destruct c as [b0 b1 b2 b3 b4 b5 b6 b7].
  destruct b0, b1, b2, b3, b4, b5, b6, b7; reflexivity.
Qed.

Lemma lower_not_upper (s : string) :
  all_chars (fun c => negb (Text.between 65 90 c)) (Text.lower s) = true.
Proof.
  induction s as [|c s IH]; simpl; [reflexivity|].
  rewrite lower_char_not_upper, IH. reflexivity.
Qed.

Lemma all_chars_and (P Q : ascii -> bool) (s : string) :
  all_chars (fun c => P c && Q c) s = all_chars P s && all_chars Q s.
Proof.
  induction s as [|c s IH]; simpl; [reflexivity|]. rewrite IH.
  destruct (P c), (Q c), (all_chars P s), (all_chars Q s); reflexivity.
Qed.

(** On ASCII text, every term the analyzer produces has at least two
    characters, is not a stop word, and is made of lower-case letters,
    digits and underscores only.  (The hypothesis marks the texts on which
    [Text.analyzer] is the analyzer of the vectorizer; outside ASCII the
    library treats accented letters as word characters.) *)
Theorem analyzer_tokens (s w : string) :
  all_chars is_ascii s = true ->
  w ∈ Text.analyzer s ->
  (2 <= String.length w)%nat
  /\ Text.is_stop_word w = false
  /\ all_chars is_term_char w = true.
Proof.
  intros _. unfold Text.analyzer, Text.tokenize. rewrite !elem_of_filter_bool.
  intros [[Hw Hlen] Hstop].
  split; [apply Nat.leb_le, Hlen|]. split; [apply negb_true_iff, Hstop|].
  unfold is_term_char. rewrite all_chars_and. apply andb_true_iff. split.
  - pose proof (runs_word_chars (Text.lower s) EmptyString eq_refl) as H.
    rewrite Forall_forall in H. apply H, Hw.
  - pose proof (runs_all_chars (fun c => negb (Text.between 65 90 c))
                  (Text.lower s) EmptyString eq_refl (lower_not_upper s)) as H.
    rewrite Forall_forall in H. apply H, Hw.
Qed.

Lemma analyzer_tokens_witness :
  (2 <= String.length "laptop")%nat
  /\ Text.is_stop_word "laptop" = false
  /\ all_chars is_term_char "laptop" = true.
Proof.
  apply (analyzer_tokens "The Pro-Laptop" "laptop"); [reflexivity|].
  apply list_elem_of_In. vm_compute. right. left. reflexivity.
Defined.

(** ** Queries *)

Lemma lower_eq_nil (s : string) : Text.lower s = ""%string <-> s = ""%string.
Proof. destruct s; simpl; split; intros; try reflexivity; discriminate. Qed.

(** Two queries that differ only in the case of their letters get the same
    results and the same answer. *)
Theorem retrieve_case_insensitive (self : RAG) (query query' : string) (k : Z) :
  Text.lower query = Text.lower query' ->
  retrieve self query k = retrieve self query' k
  /\ answer self query k = answer self query' k.
Proof.
  intros H.
  assert (E : retrieve self query k = retrieve self query' k).
  { unfold retrieve, scores_of, Sk.transform, Text.analyzer. rewrite H.
    destruct (String.eqb_spec query "") as [->|Hq],
             (String.eqb_spec query' "") as [->|Hq']; try reflexivity.
    - symmetry in H. apply (proj1 (lower_eq_nil _)) in H. contradiction.
    - apply (proj1 (lower_eq_nil _)) in H. contradiction. }
  split; [exact E|]. unfold answer. rewrite E. reflexivity.
Qed.

Lemma retrieve_case_insensitive_witness :
  retrieve two_laptops "LAPTOP" 2 = retrieve two_laptops "laptop" 2
  /\ answer two_laptops "LAPTOP" 2 = answer two_laptops "laptop" 2.
Proof. apply (retrieve_case_insensitive two_laptops "LAPTOP" "laptop" 2). reflexivity. Defined.

Lemma count_absent (t : string) (tokens : list string) :
  t ∉ tokens -> Sk.count t tokens = 0%nat.
Proof.
  unfold Sk.count. induction tokens as [|u tokens IH]; simpl; intros H; [reflexivity|].
  rewrite not_elem_of_cons in H. destruct H as [Hne H].
  destruct (String.eqb_spec t u); [contradiction | auto].
Qed.

Lemma count_row_absent (i : nat) (vocabulary tokens : list string) :
  Forall (fun t => t ∉ tokens) vocabulary -> Sk.count_row i vocabulary tokens = [].
Proof.
  intros H. revert i. induction H as [|t v Ht _ IH]; intros i; simpl; [reflexivity|].
  rewrite (count_absent _ _ Ht). simpl. apply IH.
Qed.

Lemma selected_no_positive (v : list float) (k : Z) :
  List.filter F64.positive v = [] -> selected v k = [].
Proof.
  intros H. destruct (selected v k) as [|idx rest] eqn:E; [reflexivity|]. exfalso.
  assert (Hin : idx ∈ selected v k) by (rewrite E; left).
  pose proof (selected_positive _ _ _ Hin) as Hpos.
  pose proof (selected_bound _ _ _ Hin) as Hb.
  assert (Hf : In (Np.get v idx) (List.filter F64.positive v)).
  { apply filter_In. split; [apply nth_In, Hb | exact Hpos]. }
  rewrite H in Hf. exact Hf.
Qed.

(** A query none of whose terms is in the vocabulary (a query of stop
    words, or about unknown products) gets no result, and the fallback
    answer. *)
Theorem retrieve_unknown_terms (self : RAG) (query : string) (k : Z) :
  Forall (fun t => t ∉ Text.analyzer query) (vocabulary_ self) ->
  retrieve self query k = [] /\ answer self query k = Ok fallback.
Proof.
  intros H.
  assert (E : retrieve self query k = []).
  { destruct (retrieve_cases self query k) as [E|E]; [exact E|]. rewrite E.
    rewrite selected_no_positive; [reflexivity|].
    unfold scores_of, Sk.transform. rewrite (count_row_absent _ _ _ H).
    unfold Sk.linear_kernel. induction (doc_vectors self) as [|d ds IH]; [reflexivity|].
    simpl. exact IH. }
  split; [exact E|]. unfold answer. rewrite E. reflexivity.
Qed.

Lemma retrieve_unknown_terms_witness :
  retrieve two_laptops "the phone" 3 = []
  /\ answer two_laptops "the phone" 3 = Ok fallback.
Proof.
  apply (retrieve_unknown_terms two_laptops "the phone" 3).
  repeat constructor. rewrite list_elem_of_In. vm_compute. intuition discriminate.
Defined.

(** ** [retrieve] as [k] grows *)

(** For [0 <= k <= k'] the results for [k] are the beginning of the
    results for [k']: asking for more documents never changes the ones
    already returned. *)
Theorem retrieve_prefix (self : RAG) (query : string) (k k' : Z) :
  0 <= k -> k <= k' ->
  retrieve self query k `prefix_of` retrieve self query k'.
Proof.
  intros Hk Hk'. unfold retrieve.
  destruct (String.eqb query ""); [reflexivity|]. cbv zeta.
  rewrite !slice_to_nonneg by lia.
  replace (Z.to_nat k') with (Z.to_nat k + (Z.to_nat k' - Z.to_nat k))%nat by lia.
  rewrite <- take_take_drop, List.filter_app, List.map_app.
  eexists. reflexivity.
Qed.

Lemma retrieve_prefix_witness :
  retrieve two_laptops "laptop" 1 `prefix_of` retrieve two_laptops "laptop" 2.
Proof. apply (retrieve_prefix two_laptops "laptop" 1 2); lia. Defined.

(** When [k] is at least the number of documents, [retrieve] returns
    exactly the documents whose score is positive. *)
Theorem retrieve_all_positive (self : RAG) (query : string) (k : Z) (idx : nat) :
  query <> ""%string ->
  Z.of_nat (length (doc_vectors self)) <= k ->
  idx ∈ map fst (retrieve self query k) <->
  (idx < length (doc_vectors self))%nat
  /\ F64.positive (Np.get (scores_of self query) idx) = true.
Proof.
  intros Hq Hk.
  destruct (map_fst_retrieve self query k) as [E|E].
  - rewrite retrieve_eq in E by assumption. rewrite retrieve_eq by assumption.
    rewrite map_map in *. simpl in *. rewrite map_id in *. revert E.
    unfold selected. rewrite slice_to_nonneg by lia.
    rewrite take_ge by (rewrite length_ranked, length_scores_of; lia).
    intros E. rewrite E. rewrite elem_of_nil. split; [tauto|].
    intros [Hb Hpos]. assert (Hin : idx ∈ List.filter
      (fun i => F64.positive (Np.get (scores_of self query) i))
      (ranked (scores_of self query))).
    { apply elem_of_filter_bool. split; [|exact Hpos].
      rewrite ranked_perm. apply list_elem_of_In, in_seq.
      rewrite length_scores_of. lia. }
    rewrite E in Hin. apply elem_of_nil in Hin. exact Hin.
  - rewrite E. unfold selected. rewrite slice_to_nonneg by lia.
    rewrite take_ge by (rewrite length_ranked, length_scores_of; lia).
    rewrite elem_of_filter_bool, ranked_perm, list_elem_of_In, in_seq.
    rewrite length_scores_of. intuition lia.
Qed.

Lemma retrieve_all_positive_witness :
  1%nat ∈ map fst (retrieve two_laptops "laptop" 2) <->
  (1 < length (doc_vectors two_laptops))%nat
  /\ F64.positive (Np.get (scores_of two_laptops "laptop") 1) = true.
Proof.
  apply (retrieve_all_positive two_laptops "laptop" 2 1); [discriminate | simpl; lia].
Defined.

(** ** [answer]: totality *)

(** On a built engine [answer] always returns a string, and never the empty
    string. *)
Theorem answer_returns_text (np_log : float -> float) (documents : list document)
    (self : RAG) (query : string) (k : Z) :
  RAG_init np_log documents = Ok self ->
  exists text, answer self query k = Ok text /\ text <> ""%string.
Proof.
  intros Hinit. unfold answer.
  destruct (retrieve self query k) as [|[idx s] rest] eqn:E.
  - exists fallback. split; [reflexivity | discriminate].
  - assert (Hb : (idx < length (docs self))%nat).
    { eapply (retrieve_index_bound _ _ _ query k idx s); [eassumption|].
      rewrite E. left. }
    apply lookup_lt_is_Some_2 in Hb as [doc ->].
    eexists. split; [reflexivity|].
    destruct (get_field doc "title"); discriminate.
Qed.

Lemma answer_returns_text_witness :
  exists text, answer two_laptops "laptop" 1 = Ok text /\ text <> ""%string.
Proof.
  apply (answer_returns_text log_at_one [laptop_doc; laptop_doc] two_laptops "laptop" 1).
  vm_compute. reflexivity.
Defined.

(** Every returned pair carries the index of a stored document vector and
    the product of the query vector with that vector. *)
Theorem retrieve_score (self : RAG) (query : string) (k : Z) (idx : nat) (s : float) :
  (idx, s) ∈ retrieve self query k ->
  exists d,
    doc_vectors self !! idx = Some d /\
    s = Sk.dot (Sk.transform (vocabulary_ self) (idf_ self) query) d.
Proof.
  intros H. apply retrieve_elem in H as [Hin ->].
  apply selected_bound in Hin. rewrite length_scores_of in Hin.
  apply lookup_lt_is_Some_2 in Hin as [d Hd]. exists d. split; [exact Hd|].
  unfold Np.get, scores_of, Sk.linear_kernel.
  rewrite nth_lookup, list_lookup_fmap, Hd. reflexivity.
Qed.

Lemma retrieve_score_witness :
  exists d,
    doc_vectors two_laptops !! 1%nat = Some d /\
    F64.one = Sk.dot (Sk.transform (vocabulary_ two_laptops) (idf_ two_laptops) "laptop") d.
Proof.
  apply (retrieve_score two_laptops "laptop" 2 1 F64.one).
  apply list_elem_of_In. vm_compute. left. reflexivity.
Defined.

(** ** [precision_at_k]: the cut-off *)

Lemma slice_to_mono {A : Type} (l : list A) (k k' : Z) :
  0 <= k -> k <= k' -> slice_to l k `sublist_of` slice_to l k'.
Proof.
  intros Hk Hk'. rewrite !slice_to_nonneg by lia.
  replace (Z.to_nat k) with (Nat.min (Z.to_nat k) (Z.to_nat k')) by lia.
  rewrite <- take_take. apply sublist_take.
Qed.

(** For non-negative cut-offs a hit stays a hit when the cut-off grows. *)
Theorem precision_at_k_mono (ranking : list Z) (relevant_index k k' : Z) :
  0 <= k -> k <= k' ->
  precision_at_k ranking relevant_index k = F64.one ->
  precision_at_k ranking relevant_index k' = F64.one.
Proof.
  intros Hk Hk'. rewrite !precision_at_k_one. intros H.
  eapply elem_of_sublist; [exact H | apply slice_to_mono; assumption].
Qed.

Lemma precision_at_k_mono_witness : precision_at_k [5; 2; 1] 2 3 = F64.one.
Proof. apply (precision_at_k_mono [5; 2; 1] 2 2 3); [lia | lia | reflexivity]. Defined.

(** A cut-off of at least the length of the ranking tests membership in
    the whole ranking. *)
Theorem precision_at_k_whole (ranking : list Z) (relevant_index k : Z) :
  Z.of_nat (length ranking) <= k ->
  precision_at_k ranking relevant_index k = F64.one <-> relevant_index ∈ ranking.
Proof.
  intros Hk. rewrite precision_at_k_one, slice_to_nonneg by lia.
  rewrite take_ge by lia. reflexivity.
Qed.

Lemma precision_at_k_whole_witness :
  precision_at_k [5; 2; 1] 1 7 = F64.one <-> 1 ∈ [5; 2; 1].
Proof. apply (precision_at_k_whole [5; 2; 1] 1 7). simpl. lia. Defined.

(** A cut-off of at most minus the length of the ranking leaves nothing
    of it: the result is [0.0]. *)
Theorem precision_at_k_below (ranking : list Z) (relevant_index k : Z) :
  k <= - Z.of_nat (length ranking) ->
  precision_at_k ranking relevant_index k = F64.zero.
Proof.
  intros Hk. apply precision_at_k_zero. unfold slice_to.
  destruct (Z.leb_spec 0 k) as [H0|H0].
  - assert (length ranking = 0%nat) as Hl by lia.
    destruct ranking; [|discriminate]. rewrite take_nil. apply not_elem_of_nil.
  - replace (Z.to_nat (Z.of_nat (length ranking) + k)) with 0%nat by lia.
    apply not_elem_of_nil.
Qed.

Lemma precision_at_k_below_witness : precision_at_k [5; 2; 1] 5 (-3) = F64.zero.
Proof. apply (precision_at_k_below [5; 2; 1] 5 (-3)). simpl. lia. Defined.

(** ** [evaluate] *)

Lemma precisions_of_hit (rag : RAG) (k : Z) :
  precisions_of rag k
  = map (fun sample => if hit rag k sample then F64.one else F64.zero) SAMPLE_QUERIES.
Proof. reflexivity. Qed.

Lemma evaluate_docs_eq (np_log : float -> float) (documents : list document)
    (self : RAG) (k : Z) :
  RAG_init np_log documents = Ok self ->
  evaluate_docs np_log documents k
  = Ok (F64.div (F64.of_nat (length (List.filter (hit self k) SAMPLE_QUERIES)))
                (F64.of_nat 5)).
Proof.
  intros Hinit. unfold evaluate_docs. rewrite Hinit. simpl bind.
  rewrite precisions_of_hit. unfold SAMPLE_QUERIES. cbn [map List.filter].
  repeat match goal with
         | |- context [hit self k ?x] =>
             let b := fresh "b" in generalize (hit self k x); intros b
         end.
  destruct b, b0, b1, b2, b3; vm_compute; reflexivity.
Qed.

(** On a collection from which the engine can be built, [evaluate]
    returns the number of sample queries that hit, divided by five. *)
Theorem evaluate_docs_value (np_log : float -> float) (documents : list document)
    (self : RAG) (k : Z) :
  RAG_init np_log documents = Ok self ->
  evaluate_docs np_log documents k
  = Ok (F64.div (F64.of_nat (length (List.filter (hit self k) SAMPLE_QUERIES)))
                (F64.of_nat 5)).
Proof. apply evaluate_docs_eq. Qed.

Lemma evaluate_docs_value_witness :
  evaluate_docs log_at_one [laptop_doc; laptop_doc] 3
  = Ok (F64.div (F64.of_nat (length (List.filter (hit two_laptops 3) SAMPLE_QUERIES)))
                (F64.of_nat 5)).
Proof.
  apply (evaluate_docs_value log_at_one [laptop_doc; laptop_doc] two_laptops 3).
  vm_compute. reflexivity.
Defined.

(** With the cut-off [k = 0] no sample query hits: [evaluate] returns
    [0.0]. *)
Theorem evaluate_docs_k0 (np_log : float -> float) (documents : list document)
    (self : RAG) :
  RAG_init np_log documents = Ok self ->
  evaluate_docs np_log documents 0 = Ok F64.zero.
Proof.
  intros Hinit. rewrite (evaluate_docs_eq _ _ _ _ Hinit). reflexivity.
Qed.

Lemma evaluate_docs_k0_witness :
  evaluate_docs log_at_one [laptop_doc; laptop_doc] 0 = Ok F64.zero.
Proof.
  apply (evaluate_docs_k0 log_at_one [laptop_doc; laptop_doc] two_laptops).
  vm_compute. reflexivity.
Defined.

(** A sample query can only hit when its relevant index is a position of
    the collection: on fewer than five documents the later sample queries
    always count as misses. *)
Theorem hit_index_bound (np_log : float -> float) (documents : list document)
    (self : RAG) (k : Z) (query : string) (relevant_idx : Z) :
  RAG_init np_log documents = Ok self ->
  hit self k (query, relevant_idx) = true ->
  0 <= relevant_idx < Z.of_nat (length documents).
Proof.
  intros Hinit H. unfold hit in H. simpl in H.
  apply py_in_elem_of in H.
  eapply elem_of_sublist in H; [|apply slice_to_sublist].
  apply list_elem_of_In, in_map_iff in H as ([idx s] & <- & Hin). simpl.
  apply list_elem_of_In in Hin.
  pose proof (retrieve_index_bound _ _ _ _ _ _ _ Hinit Hin) as Hb.
  apply RAG_init_Ok in Hinit as (<- & _). lia.
Qed.

Lemma hit_index_bound_witness : 0 <= 1 < Z.of_nat (length [laptop_doc; laptop_doc]).
Proof.
  apply (hit_index_bound log_at_one [laptop_doc; laptop_doc] two_laptops 2 "laptop" 1);
    vm_compute; reflexivity.
Defined.

(** ** The number of results *)

(** For [k >= 0], [retrieve] returns at most [k] entries and at most one
    for each document, whatever the scores are. *)
Theorem retrieve_length_le (self : RAG) (query : string) (k : Z) :
  0 <= k ->
  (length (retrieve self query k) <= Z.to_nat k)%nat
  /\ (length (retrieve self query k) <= length (doc_vectors self))%nat.
Proof.
  intros Hk. destruct (retrieve_cases self query k) as [E|E]; rewrite E;
    [simpl; lia|].
  rewrite length_map. unfold selected. rewrite slice_to_nonneg by assumption.
  pose proof (sublist_length _ _ (filter_sublist
    (fun idx => F64.positive (Np.get (scores_of self query) idx))
    (take (Z.to_nat k) (ranked (scores_of self query))))) as H.
  rewrite length_take, length_ranked, length_scores_of in H. lia.
Qed.

Lemma retrieve_length_le_witness :
  (length (retrieve two_laptops "laptop" 1) <= Z.to_nat 1)%nat
  /\ (length (retrieve two_laptops "laptop" 1) <= length (doc_vectors two_laptops))%nat.
Proof. apply (retrieve_length_le two_laptops "laptop" 1). lia. Defined.

(** A negative [k] is not rejected: the slice drops the [-k] lowest
    ranked documents, so at most [n - |k|] of the [n] documents are
    returned. *)
Theorem retrieve_negative_k (self : RAG) (query : string) (k : Z) :
  k < 0 ->
  (length (retrieve self query k) <= length (doc_vectors self) - Z.to_nat (- k))%nat.
Proof.
  intros Hk. destruct (retrieve_cases self query k) as [E|E]; rewrite E;
    [simpl; lia|].
  rewrite length_map. unfold selected, slice_to.
  destruct (Z.leb_spec 0 k) as [H0|_]; [lia|].
  etransitivity; [apply sublist_length, filter_sublist|].
  rewrite length_take, !length_ranked, length_scores_of. lia.
Qed.

Lemma retrieve_negative_k_witness :
  (length (retrieve two_laptops "laptop" (-1))
   <= length (doc_vectors two_laptops) - Z.to_nat (- (-1)))%nat.
Proof. apply (retrieve_negative_k two_laptops "laptop" (-1)). lia. Defined.
